(** * opencoverage: the report page and the coverage engine behind it

    Two parts.

    - [Page] embeds [app/pages/[org]/repos/[repo]/commits/[commit]/report.js]:
      the components [ReportUrls] and [ReportPage], over a model of the
      JavaScript values that the page receives from its API.
    - [Engine] is the ingestion, aggregation and storage engine.  Its code is
      not among the sources; its operations are modelled from the
      specification and each such definition says so. *)

From Stdlib Require Import ZArith QArith Ascii String List Lia.
From Stdlib Require Import PrimFloat FloatOps SpecFloat DecimalString.
From stdpp Require Import base option list sorting strings.

Set Warnings "-register-all,-inexact-float".
#[local] Arguments String.append !s1 s2.
Local Open Scope string_scope.

(** ** Strings

    Strings are sequences of bytes.  Cutting a string at a character serves
    both the links of the page and the paths of the engine. *)

Module Text.

Fixpoint has_char (c : ascii) (s : string) : bool :=
  match s with
  | "" => false
  | String a rest => Ascii.eqb a c || has_char c rest
  end.

Fixpoint before (c : ascii) (s : string) : string :=
  match s with
  | "" => ""
  | String a rest => if Ascii.eqb a c then "" else String a (before c rest)
  end.

Fixpoint after (c : ascii) (s : string) : option string :=
  match s with
  | "" => None
  | String a rest => if Ascii.eqb a c then Some rest else after c rest
  end.

Fixpoint split (c : ascii) (s : string) : list string :=
  match s with
  | "" => [""]
  | String a rest =>
      if Ascii.eqb a c then "" :: split c rest
      else match split c rest with
           | [] => [String a ""]
           | piece :: pieces => String a piece :: pieces
           end
  end.

Lemma append_assoc (a b c : string) : (a ++ b) ++ c = a ++ (b ++ c).
Proof. induction a as [|x a IH]; simpl; [reflexivity | now rewrite IH]. Qed.


Lemma has_char_append c (a b : string) :
  has_char c (a ++ b) = has_char c a || has_char c b.
Proof.
  induction a as [|x a IH]; simpl; [reflexivity|].
  now rewrite IH, Bool.orb_assoc.
Qed.

Lemma before_append c (a b : string) :
  has_char c a = false -> before c (a ++ b) = a ++ before c b.
Proof.
  induction a as [|x a IH]; simpl; [reflexivity|].
  intros H. apply Bool.orb_false_iff in H as [Hx Ha].
  now rewrite Hx, IH.
Qed.

Lemma after_append c (a b : string) :
  has_char c a = false -> after c (a ++ b) = after c b.
Proof.
  induction a as [|x a IH]; simpl; [reflexivity|].
  intros H. apply Bool.orb_false_iff in H as [Hx Ha].
  now rewrite Hx, IH.
Qed.

Lemma before_absent c s : has_char c s = false -> before c s = s.
Proof.
  induction s as [|x s IH]; simpl; [reflexivity|].
  intros H. apply Bool.orb_false_iff in H as [Hx Hs].
  now rewrite Hx, IH.
Qed.

Lemma length_before c s : String.length (before c s) <= String.length s.
Proof.
  induction s as [|x s IH]; simpl; [lia|].
  destruct (Ascii.eqb x c); simpl; lia.
Qed.

Lemma length_before_present c s :
  has_char c s = true -> String.length (before c s) < String.length s.
Proof.
  induction s as [|x s IH]; simpl; [discriminate|].
  destruct (Ascii.eqb x c); simpl; [lia|].
  intros H. apply IH in H. lia.
Qed.

Lemma split_head c s : exists pieces, split c s = before c s :: pieces.
Proof.
  induction s as [|x s [pieces IH]]; simpl; [now exists []|].
  destruct (Ascii.eqb x c); [now eexists|].
  rewrite IH. now eexists.
Qed.

End Text.

(** ** JavaScript values and the operations the page applies to them *)

Module Page.

Import Text.

(** What [JSON.parse] can produce, and [undefined].  Numbers are binary64;
    an object lists its own properties, each name once. *)
Inductive value :=
| Undefined
| Null
| Bool (b : bool)
| Number (x : float)
| Str (s : string)
| Array (elems : list value)
| Object (props : list (string * value)).

(** A completion record: the expression yields a value or throws. *)
Inductive exception := TypeError.

Inductive completion (A : Type) :=
| Normal (a : A)
| Throw (e : exception).
Arguments Normal {A} a.
Arguments Throw {A} e.

Definition bind {A B} (c : completion A) (k : A -> completion B) : completion B :=
  match c with
  | Normal a => k a
  | Throw e => Throw e
  end.

Notation "'let*' x ':=' c 'in' k" := (bind c (fun x => k))
  (at level 10, x name, c at level 100, k at level 200).

Definition is_nan (x : float) : bool := negb (PrimFloat.eqb x x).

(** [!data] is [negb (ToBoolean data)]. *)
Definition ToBoolean (v : value) : bool :=
  match v with
  | Undefined | Null => false
  | Bool b => b
  | Number x => negb (PrimFloat.eqb x 0%float || is_nan x)
  | Str s => negb (String.eqb s "")
  | Array _ | Object _ => true
  end.

Fixpoint own_property (p : string) (props : list (string * value)) : option value :=
  match props with
  | [] => None
  | (k, v) :: rest => if String.eqb k p then Some v else own_property p rest
  end.

(** [v.p] for a property name [p] that no built-in prototype defines
    ([result], [filename], [line_rate]): reading it off [undefined] or
    [null] throws, off any other value without such an own property it
    gives [undefined]. *)
Definition Get (v : value) (p : string) : completion value :=
  match v with
  | Undefined | Null => Throw TypeError
  | Object props => Normal (default Undefined (own_property p props))
  | Bool _ | Number _ | Str _ | Array _ => Normal Undefined
  end.

Section Runtime.

(** The two conversions of the language runtime that are not spelled out
    here: Number::toString and StringToNumber. *)
Variable NumberToString : float -> string.
Variable StringToNumber : string -> float.

(** [ToString(ToPrimitive(v))].  An array joins its elements with commas,
    [null] and [undefined] elements as the empty string; an object prints as
    [[object Object]] unless an own (hence not callable) [toString] property
    shadows [Object.prototype.toString]. *)
Fixpoint ToString (v : value) : completion string :=
  match v with
  | Undefined => Normal "undefined"
  | Null => Normal "null"
  | Bool b => Normal (if b then "true" else "false")
  | Number x => Normal (NumberToString x)
  | Str s => Normal s
  | Array elems =>
      (fix join (l : list value) : completion string :=
         match l with
         | [] => Normal ""
         | e :: rest =>
             let* s := match e with
                       | Undefined | Null => Normal ""
                       | _ => ToString e
                       end in
             match rest with
             | [] => Normal s
             | _ :: _ => let* r := join rest in Normal (s ++ "," ++ r)
             end
         end) elems
  | Object props =>
      match own_property "toString" props with
      | Some _ => Throw TypeError
      | None => Normal "[object Object]"
      end
  end.

Definition ToNumber (v : value) : completion float :=
  match v with
  | Undefined => Normal nan
  | Null => Normal 0%float
  | Bool b => Normal (if b then 1%float else 0%float)
  | Number x => Normal x
  | Str s => Normal (StringToNumber s)
  | Array _ | Object _ => let* s := ToString v in Normal (StringToNumber s)
  end.

(** [s + v] with a string on the left. *)
Definition add_to_string (s : string) (v : value) : completion string :=
  let* t := ToString v in Normal (s ++ t).

(** [v * y] with a number on the right. *)
Definition times (v : value) (y : float) : completion float :=
  let* x := ToNumber v in Normal (PrimFloat.mul x y).

(** *** Number.prototype.toFixed *)

Definition digits (n : Z) : string :=
  NilZero.string_of_uint (N.to_uint (Z.to_N n)).

(** The integer [n] for which [n / 10^f - m * 2^e] is closest to zero, the
    larger one of two. *)
Definition nearest_scaled (m : positive) (e : Z) (f : nat) : Z :=
  let num := (Z.pos m * 10 ^ Z.of_nat f * 2 ^ Z.max e 0)%Z in
  let den := (2 ^ Z.max (- e) 0)%Z in
  ((2 * num + den) / (2 * den))%Z.

Definition at_least_1e21 (m : positive) (e : Z) : bool :=
  (10 ^ 21 * 2 ^ Z.max (- e) 0 <=? Z.pos m * 2 ^ Z.max e 0)%Z.

Definition zeros (n : nat) : string := string_of_list_ascii (repeat "0"%char n).

Definition place_point (f : nat) (m : string) : string :=
  if Nat.eqb f 0 then m
  else
    let m := if Nat.leb (String.length m) f
             then zeros (f + 1 - String.length m) ++ m else m in
    let k := String.length m in
    substring 0 (k - f) m ++ "." ++ substring (k - f) f m.

Definition toFixed (x : float) (fractionDigits : nat) : string :=
  match Prim2SF x with
  | S754_nan => "NaN"
  | S754_infinity s => if s then "-Infinity" else "Infinity"
  | S754_zero _ => place_point fractionDigits (digits 0)
  | S754_finite s m e =>
      (if s then "-" else "") ++
      (if at_least_1e21 m e then NumberToString (PrimFloat.abs x)
       else place_point fractionDigits (digits (nearest_scaled m e fractionDigits)))
  end.

End Runtime.

(** ** React elements

    A JSX expression as written: the element type (a lower-case name is a
    DOM tag, a capitalised one a component: [Link], [Header], [Report],
    [Footer], [ReportUrls]), its attributes with [key] among them, and its
    children.  An array child stands for its elements in order. *)
Inductive node :=
| Element (type : string) (attrs : list (string * value)) (children : list node)
| Text (s : string)
| Embedded (v : value).

(** The route parameters; the router hands them over as strings. *)
Record Params := { org : string; repo : string; commit : string }.

Definition params_value (params : Params) : value :=
  Object [("org", Str (org params)); ("repo", Str (repo params));
          ("commit", Str (commit params))].

(** What [useSWR] returns for a key; the components never read [error]. *)
Record SWRResponse := { data : value; error : value }.

(** [Array.prototype.map]: the callback runs on the elements in order and
    the first exception ends the loop. *)
Fixpoint array_map {B} (callback : value -> nat -> completion B)
    (elems : list value) (index : nat) : completion (list B) :=
  match elems with
  | [] => Normal []
  | value :: rest =>
      let* b := callback value index in
      let* bs := array_map callback rest (S index) in
      Normal (b :: bs)
  end.

(** [v.map(callback)]: only an array has a callable [map]. *)
Definition map_method {B} (v : value) (callback : value -> nat -> completion B)
  : completion (list B) :=
  match v with
  | Array elems => array_map callback elems 0
  | _ => Throw TypeError
  end.

(** ** The files response *)

(** Modelled from the spec: one element of [result] in the body of
    [GET .../files], which section 6 types and no source file declares.  The
    numbers are binary64, as [JSON.parse] yields them. *)
Record FileRecord := {
  filename : string;
  line_rate : float;
  total_lines : float;
  covered_lines : float
}.

(** The object that the page receives for a record, and the whole body. *)
Definition file_record (f : FileRecord) : value :=
  Object [("filename", Str (filename f)); ("line_rate", Number (line_rate f));
          ("total_lines", Number (total_lines f));
          ("covered_lines", Number (covered_lines f))].

Definition files_response (files : list FileRecord) : value :=
  Object [("result", Array (map file_record files))].

(** ** Reading a link back

    How the target of a link is taken apart again: the fragment starts at
    the first [#], the query at the first [?] before it; the query is a
    list of [name=value] pairs separated by [&], each side with [+] for a
    space and percent-encoded bytes.  Strings are sequences of bytes. *)

Definition hex_digit (a : ascii) : option N :=
  let n := N_of_ascii a in
  if ((48 <=? n) && (n <=? 57))%N then Some (n - 48)%N
  else if ((65 <=? n) && (n <=? 70))%N then Some (n - 55)%N
  else if ((97 <=? n) && (n <=? 102))%N then Some (n - 87)%N
  else None.

Fixpoint percent_decode (s : string) : string :=
  match s with
  | "" => ""
  | String a rest =>
      match rest with
      | String h (String l rest') =>
          match Ascii.eqb a "%", hex_digit h, hex_digit l with
          | true, Some x, Some y =>
              String (ascii_of_N (16 * x + y)) (percent_decode rest')
          | _, _, _ => String a (percent_decode rest)
          end
      | _ => String a (percent_decode rest)
      end
  end.

Fixpoint plus_to_space (s : string) : string :=
  match s with
  | "" => ""
  | String a rest =>
      String (if Ascii.eqb a "+" then " "%char else a) (plus_to_space rest)
  end.

Definition form_decode (s : string) : string :=
  percent_decode (plus_to_space s).

Definition parse_pair (piece : string) : string * string :=
  (form_decode (before "=" piece),
   form_decode (default "" (after "=" piece))).

Definition search_params (href : string) : list (string * string) :=
  match after "?" (before "#" href) with
  | None => []
  | Some query =>
      map parse_pair
        (List.filter (fun piece => negb (String.eqb piece "")) (split "&" query))
  end.

Fixpoint get_param (name : string) (pairs : list (string * string)) : option string :=
  match pairs with
  | [] => None
  | (k, v) :: rest => if String.eqb k name then Some v else get_param name rest
  end.

(** The [filename] that the target page reads from the link. *)
Definition linked_filename (href : string) : option string :=
  get_param "filename" (search_params href).

(** ** The components of report.js *)

Section Components.

Variable NumberToString : float -> string.
Variable StringToNumber : string -> float.

(** From [utils], which is not among the sources. *)
Variable apiUrl : string.
Variable calcTagClassName : value -> value.

(** The state of the SWR cache at the time of rendering, by key. *)
Variable useSWR : string -> SWRResponse.

Definition file_href (params : Params) (filename : value) : completion string :=
  add_to_string NumberToString
    ("/" ++ org params ++ "/repos/" ++ repo params ++ "/commits/" ++
     commit params ++ "/file?filename=")
    filename.

Definition filename_cell (params : Params) (value : value) : completion node :=
  let* filename := Get value "filename" in
  let* href := file_href params filename in
  let* label := Get value "filename" in
  Normal (Element "td" []
            [Element "Link" [("href", Str href)]
               [Element "a" [] [Embedded label]]]).

Definition coverage_cell (value : value) : completion node :=
  let* line_rate := Get value "line_rate" in
  let className := calcTagClassName line_rate in
  let* line_rate := Get value "line_rate" in
  let* percent := times NumberToString StringToNumber line_rate 100%float in
  Normal (Element "td" [("className", className)]
            [Embedded (Str (toFixed NumberToString percent 1)); Text "%"]).

(** The callback of [data.result.map]. *)
Definition table_row (params : Params) (value : value) (index : nat)
  : completion node :=
  let* key := Get value "filename" in
  let* name := filename_cell params value in
  let* coverage := coverage_cell value in
  Normal (Element "tr" [("key", key)] [name; coverage]).

(** The two keys, as the template literals spell them. *)
Definition files_url (params : Params) : string :=
  apiUrl ++ "/" ++ org params ++ "/repos/" ++ repo params ++
  "/commits/" ++ commit params ++ "/files".

Definition report_url (params : Params) : string :=
  apiUrl ++ "/" ++ org params ++ "/repos/" ++ repo params ++
  "/commits/" ++ commit params ++ "/report".

Definition table (rows : list node) : node :=
  Element "table" [("className", Str "table")]
    [Element "thead" []
       [Element "tr" []
          [Element "th" [] [Text "Filename"];
           Element "th" [] [Text "Coverage"]]];
     Element "tbody" [] rows].

Definition ReportUrls (params : Params) : completion node :=
  let '{| data := data; error := error |} := useSWR (files_url params) in
  if negb (ToBoolean data) then Normal (Element "div" [] [])
  else
    let* result := Get data "result" in
    let* rows := map_method result (table_row params) in
    Normal (table rows).

Definition ReportPage (params : Params) : completion node :=
  let '{| data := data; error := error |} := useSWR (report_url params) in
  if negb (ToBoolean data) then Normal (Element "div" [] [])
  else
    Normal
      (Element "div" [("className", Str "container")]
         [Element "Header" [] [];
          Element "Report" [("report", data)] [];
          Element "h3" [("className", Str "title")] [Text "Package coverage"];
          Element "ReportUrls" [("params", params_value params)] [];
          Element "Footer" [] []]).

(** The row of a well-typed record, written out: the filename as the text
    of a link, and the percentage under the class that [calcTagClassName]
    picks for the rate. *)
Definition file_row (params : Params) (f : FileRecord) : node :=
  Element "tr" [("key", Str (filename f))]
    [Element "td" []
       [Element "Link"
          [("href",
            Str ("/" ++ org params ++ "/repos/" ++ repo params ++ "/commits/" ++
                 commit params ++ "/file?filename=" ++ filename f))]
          [Element "a" [] [Embedded (Str (filename f))]]];
     Element "td" [("className", calcTagClassName (Number (line_rate f)))]
       [Embedded (Str (toFixed NumberToString (line_rate f * 100)%float 1));
        Text "%"]].


(** *** Properties *)

Lemma array_map_lookup {B} (callback : value -> nat -> completion B) elems :
  forall index bs,
    array_map callback elems index = Normal bs ->
    List.length bs = List.length elems /\
    forall i value, elems !! i = Some value ->
      exists b, bs !! i = Some b /\ callback value (index + i) = Normal b.
Proof.
  induction elems as [|v rest IH]; intros index bs H; simpl in H.
  - inversion H; subst. split; [reflexivity|]. intros i value Hi. discriminate.
  - destruct (callback v index) as [b|e] eqn:Hb; simpl in H; [|discriminate].
    destruct (array_map callback rest (S index)) as [bs'|e] eqn:Hrest;
      simpl in H; [|discriminate].
    inversion H; subst. destruct (IH _ _ Hrest) as [Hlen Hnth].
    split; [simpl; now rewrite Hlen|].
    intros [|i] value Hi; simpl in Hi.
    + inversion Hi; subst. exists b. rewrite Nat.add_0_r. now split.
    + destruct (Hnth i value Hi) as (b' & Hb' & Hcall).
      exists b'. split; [exact Hb'|].
      now replace (index + S i) with (S index + i) by lia.
Qed.

Lemma file_href_string params name :
  file_href params (Str name)
  = Normal ("/" ++ org params ++ "/repos/" ++ repo params ++ "/commits/" ++
            commit params ++ "/file?filename=" ++ name).
Proof.
  unfold file_href, add_to_string. cbn [ToString bind].
  now rewrite !append_assoc.
Qed.

Lemma coverage_cell_typed f :
  coverage_cell (file_record f)
  = Normal (Element "td" [("className", calcTagClassName (Number (line_rate f)))]
              [Embedded (Str (toFixed NumberToString (line_rate f * 100)%float 1));
               Text "%"]).
Proof. reflexivity. Qed.

Lemma table_row_typed params f index :
  table_row params (file_record f) index = Normal (file_row params f).
Proof.
  unfold table_row, filename_cell. rewrite coverage_cell_typed.
  change (Get (file_record f) "filename") with (Normal (Str (filename f))).
  cbn [bind]. rewrite file_href_string. reflexivity.
Qed.

Lemma array_map_typed params files : forall index,
  array_map (table_row params) (map file_record files) index
  = Normal (map (file_row params) files).
Proof.
  induction files as [|f files IH]; intros index; [reflexivity|].
  cbn [map array_map]. rewrite table_row_typed, IH. reflexivity.
Qed.





(** [nearest_scaled m e f] is within half a unit of [m * 2^e * 10^f], and
    it is the upper one of two integers at that distance. *)
Lemma nearest_scaled_nearest m e f :
  let num := (Z.pos m * 10 ^ Z.of_nat f * 2 ^ Z.max e 0)%Z in
  let den := (2 ^ Z.max (- e) 0)%Z in
  (2 * num - den < 2 * (nearest_scaled m e f * den) <= 2 * num + den)%Z.
Proof.
  intros num den. unfold nearest_scaled. fold num den.
  assert (Hden : (0 < den)%Z) by (apply Z.pow_pos_nonneg; lia).
  pose proof (Z.div_mod (2 * num + den) (2 * den)) as Hdiv.
  pose proof (Z.mod_pos_bound (2 * num + den) (2 * den)) as Hmod.
  lia.
Qed.

(** C8: while the response is missing or falsy, [ReportUrls] and
    [ReportPage] both return the empty [div], whatever [error] holds:
    nothing is thrown and nothing else is rendered. *)
Theorem no_data_renders_empty_div params d e :
  ToBoolean d = false ->
  (useSWR (files_url params) = {| data := d; error := e |} ->
   ReportUrls params = Normal (Element "div" [] [])) /\
  (useSWR (report_url params) = {| data := d; error := e |} ->
   ReportPage params = Normal (Element "div" [] [])).
Proof.
  intros Hfalsy. split; intros Hswr.
  - unfold ReportUrls. rewrite Hswr, Hfalsy. reflexivity.
  - unfold ReportPage. rewrite Hswr, Hfalsy. reflexivity.
Qed.

(** C9: when [ReportUrls] returns the table for a response whose [result]
    is the array [elems], the body of the table has as many rows as
    [elems] has elements and its [i]-th row is the one made from the
    [i]-th element: nothing is sorted, dropped or merged. *)
Theorem rows_follow_result params elems t :
  ToBoolean (data (useSWR (files_url params))) = true ->
  Get (data (useSWR (files_url params))) "result" = Normal (Array elems) ->
  ReportUrls params = Normal t ->
  exists rows,
    t = table rows /\
    List.length rows = List.length elems /\
    forall i value, elems !! i = Some value ->
      exists row, rows !! i = Some row /\ table_row params value i = Normal row.
Proof.
  intros Htruthy Hresult. unfold ReportUrls.
  destruct (useSWR (files_url params)) as [d e]. simpl in Htruthy, Hresult.
  rewrite Htruthy, Hresult. cbn [negb bind map_method].
  destruct (array_map (table_row params) elems 0) as [rows|ex] eqn:Hrows;
    cbn [bind]; intros H; [|discriminate].
  inversion H; subst t. exists rows. split; [reflexivity|].
  destruct (array_map_lookup _ _ _ _ Hrows) as [Hlen Hnth].
  split; [exact Hlen|]. intros i value Hi. exact (Hnth i value Hi).
Qed.

(** C6: for a response [{ result: [...] }] of records with [filename],
    [line_rate], [total_lines] and [covered_lines], [ReportUrls] returns the
    table with one row per record, in order; the row shows the filename as
    the text of its link and the percentage of the record's [line_rate]
    under the class that [calcTagClassName] gives for that rate. *)
Theorem ReportUrls_renders_result params files e :
  useSWR (files_url params) = {| data := files_response files; error := e |} ->
  ReportUrls params = Normal (table (map (file_row params) files)).
Proof.
  intros Hswr. unfold ReportUrls. rewrite Hswr.
  change (ToBoolean (files_response files)) with true.
  change (Get (files_response files) "result")
    with (Normal (Array (map file_record files))).
  cbn [negb bind map_method]. rewrite array_map_typed. reflexivity.
Qed.


(** *** Links *)

Lemma length_plus_to_space s :
  String.length (plus_to_space s) = String.length s.
Proof. induction s as [|x s IH]; simpl; [reflexivity | now rewrite IH]. Qed.

Lemma length_percent_decode_bounded n : forall s,
  String.length s <= n ->
  String.length (percent_decode s) <= String.length s.
Proof.
  induction n as [|n IH]; intros [|a rest] Hn; simpl in Hn; try (simpl; lia).
  assert (Hrest : String.length (percent_decode rest) <= String.length rest)
    by (apply IH; lia).
  cbn [percent_decode]. fold (percent_decode rest).
  destruct rest as [|h [|l rest']]; try (simpl in *; lia).
  assert (Hrest' : String.length (percent_decode rest') <= String.length rest')
    by (apply IH; simpl in Hn; lia).
  destruct (Ascii.eqb a "%"), (hex_digit h), (hex_digit l);
    cbn [String.length] in *; lia.
Qed.

Lemma length_form_decode s :
  String.length (form_decode s) <= String.length s.
Proof.
  unfold form_decode.
  pose proof (length_percent_decode_bounded _ (plus_to_space s) (le_n _)) as H.
  now rewrite length_plus_to_space in H.
Qed.

(** What the target reads from a link whose path has no [?] and no [#]:
    the filename up to its first [#] or [&], decoded. *)
Lemma linked_filename_of_link path name :
  has_char "?" path = false ->
  has_char "#" path = false ->
  linked_filename (path ++ "?filename=" ++ name)
  = Some (form_decode (before "&" (before "#" name))).
Proof.
  intros Hq Hh. unfold linked_filename, search_params.
  rewrite (before_append _ _ _ Hh).
  change (before "#" ("?filename=" ++ name))
    with ("?filename=" ++ before "#" name).
  rewrite (after_append _ _ _ Hq).
  change (after "?" ("?filename=" ++ before "#" name))
    with (Some ("filename=" ++ before "#" name)).
  destruct (split_head "&" ("filename=" ++ before "#" name)) as [pieces Hs].
  rewrite Hs.
  change (before "&" ("filename=" ++ before "#" name))
    with ("filename=" ++ before "&" (before "#" name)).
  reflexivity.
Qed.

Lemma path_has_no params c :
  c = "?"%char \/ c = "#"%char ->
  has_char c (org params) = false ->
  has_char c (repo params) = false ->
  has_char c (commit params) = false ->
  has_char c ("/" ++ org params ++ "/repos/" ++ repo params ++ "/commits/" ++
              commit params ++ "/file") = false.
Proof.
  intros Hc Ho Hr Hm. rewrite !has_char_append, Ho, Hr, Hm.
  now destruct Hc; subst c.
Qed.



(** *** The rest of the page

    What a response that is not of the documented shape does to
    [ReportUrls], what the rows hold when a field is missing, and how the
    two keys relate. *)

(** [getServerSideProps]: of the context of the request only [params] is
    used, and handed to the page as its props. *)
Record Context := { context_params : Params; context_query : value }.
Record Props := { props_params : Params }.
Record ServerSideProps := { props : Props }.

Definition getServerSideProps (context : Context) : ServerSideProps :=
  {| props := {| props_params := context_params context |} |}.

(** The start of every link of the table. *)
Definition link_prefix (params : Params) : string :=
  "/" ++ org params ++ "/repos/" ++ repo params ++ "/commits/" ++
  commit params ++ "/file?filename=".

(** A row as the callback builds it, whatever the element was. *)
Definition row_shaped (params : Params) (row : node) : Prop :=
  exists key target label className text,
    row = Element "tr" [("key", key)]
            [Element "td" []
               [Element "Link" [("href", Str (link_prefix params ++ target))]
                  [Element "a" [] [Embedded label]]];
             Element "td" [("className", className)]
               [Embedded (Str text); Text "%"]].

(** An element that has a string [filename] and a number [line_rate] among
    its properties, whatever else it has. *)
Definition has_fields (v : value) (f : FileRecord) : Prop :=
  exists props,
    v = Object props /\
    own_property "filename" props = Some (Str (filename f)) /\
    own_property "line_rate" props = Some (Number (line_rate f)).

Definition slash_free (params : Params) : Prop :=
  has_char "/" (org params) = false /\
  has_char "/" (repo params) = false /\
  has_char "/" (commit params) = false.

Definition key_of (row : node) : option value :=
  match row with
  | Element _ attrs _ => own_property "key" attrs
  | _ => None
  end.

(** How React completes the tree that [ReportPage] returns: the child
    written [<ReportUrls params={params} />] is the component called on its
    props; the other children stay as they are. *)
Definition string_property (p : string) (v : value) : option string :=
  match Get v p with
  | Normal (Str s) => Some s
  | _ => None
  end.

Definition params_of (v : value) : option Params :=
  match string_property "org" v, string_property "repo" v,
        string_property "commit" v with
  | Some o, Some r, Some c => Some {| org := o; repo := r; commit := c |}
  | _, _, _ => None
  end.

Definition mount_child (child : node) : completion node :=
  match child with
  | Element type attrs _ =>
      if String.eqb type "ReportUrls" then
        match own_property "params" attrs with
        | Some v =>
            match params_of v with
            | Some params => ReportUrls params
            | None => Throw TypeError
            end
        | None => Throw TypeError
        end
      else Normal child
  | _ => Normal child
  end.

Fixpoint mount_children (children : list node) : completion (list node) :=
  match children with
  | [] => Normal []
  | child :: rest =>
      let* mounted := mount_child child in
      let* others := mount_children rest in
      Normal (mounted :: others)
  end.

Definition mount (n : node) : completion node :=
  match n with
  | Element type attrs children =>
      let* mounted := mount_children children in
      Normal (Element type attrs mounted)
  | _ => Normal n
  end.

(** The page of a request: the props of [getServerSideProps] given to
    [ReportPage], and its tree completed. *)
Definition page (context : Context) : completion node :=
  let* tree := ReportPage (props_params (props (getServerSideProps context))) in
  mount tree.

Lemma Get_truthy d p : ToBoolean d = true -> exists r, Get d p = Normal r.
Proof. destruct d; simpl; try discriminate; eauto. Qed.

Lemma array_map_throws {B} (callback : value -> nat -> completion B) v elems :
  In v elems -> (forall i, callback v i = Throw TypeError) ->
  forall index, array_map callback elems index = Throw TypeError.
Proof.
  intros Hin Hv. induction elems as [|x rest IH]; intros index; [contradiction|].
  cbn [array_map]. destruct Hin as [->|Hin].
  - now rewrite Hv.
  - destruct (callback x index) as [b|[]]; [|reflexivity].
    cbn [bind]. now rewrite (IH Hin).
Qed.

Lemma array_map_Forall {B} (callback : value -> nat -> completion B)
    (P : B -> Prop) elems :
  (forall v i b, callback v i = Normal b -> P b) ->
  forall index bs, array_map callback elems index = Normal bs -> Forall P bs.
Proof.
  intros HP. induction elems as [|x rest IH]; intros index bs; cbn [array_map].
  - intros [= <-]. constructor.
  - destruct (callback x index) as [b|ex] eqn:Hb; [|discriminate]. cbn [bind].
    destruct (array_map callback rest (S index)) as [bs'|ex] eqn:Hrest;
      [|discriminate].
    intros [= <-]. constructor; [now apply (HP x index) | now apply (IH (S index))].
Qed.

Lemma array_map_each {B C} (callback : value -> nat -> completion B)
    (R : value -> C -> Prop) (g : C -> B) elems cs :
  Forall2 R elems cs ->
  (forall v c i, R v c -> callback v i = Normal (g c)) ->
  forall index, array_map callback elems index = Normal (map g cs).
Proof.
  intros Hall Hcb. induction Hall as [|v c elems cs Hvc _ IH]; intros index;
    [reflexivity|].
  cbn [array_map map]. now rewrite (Hcb v c index Hvc), IH.
Qed.

Lemma table_row_fields params v f index :
  has_fields v f -> table_row params v index = Normal (file_row params f).
Proof.
  intros (props & -> & Hname & Hrate).
  unfold table_row, filename_cell, coverage_cell, times. cbn [Get].
  rewrite Hname, Hrate. cbn [default from_option id bind ToNumber].
  rewrite file_href_string. reflexivity.
Qed.

Lemma table_row_shaped params v index row :
  table_row params v index = Normal row -> row_shaped params row.
Proof.
  unfold table_row, filename_cell, coverage_cell, file_href, add_to_string.
  destruct (Get v "filename") as [name|ex]; [|discriminate]. cbn [bind].
  destruct (ToString NumberToString name) as [target|ex]; [|discriminate].
  cbn [bind].
  destruct (Get v "line_rate") as [rate|ex]; [|discriminate]. cbn [bind].
  destruct (times NumberToString StringToNumber rate 100) as [percent|ex];
    [|discriminate].
  cbn [bind]. intros [= <-]. unfold row_shaped, link_prefix. now eexists _, _, _, _, _.
Qed.

(** X1: a response that is truthy but whose [result] is not an array, one
    without [result] included, makes [ReportUrls] throw a TypeError: there
    is no empty table and no message in its place. *)
Theorem ReportUrls_needs_array params d e :
  useSWR (files_url params) = {| data := d; error := e |} ->
  ToBoolean d = true ->
  (forall elems, Get d "result" <> Normal (Array elems)) ->
  ReportUrls params = Throw TypeError.
Proof.
  intros Hswr Htruthy Hresult. unfold ReportUrls. rewrite Hswr, Htruthy.
  cbn [negb]. destruct (Get_truthy d "result" Htruthy) as [r Hr].
  rewrite Hr. cbn [bind]. destruct r; try reflexivity.
  now destruct (Hresult elems).
Qed.

(** X2: one [null] (or [undefined]) among the elements of [result] makes
    [ReportUrls] throw, wherever it stands and whatever the other elements
    are: the rows before it are not shown either. *)
Theorem ReportUrls_throws_on_null_element params d e elems :
  useSWR (files_url params) = {| data := d; error := e |} ->
  ToBoolean d = true ->
  Get d "result" = Normal (Array elems) ->
  In Null elems \/ In Undefined elems ->
  ReportUrls params = Throw TypeError.
Proof.
  intros Hswr Htruthy Hresult Hbad. unfold ReportUrls.
  rewrite Hswr, Htruthy, Hresult. cbn [negb bind map_method].
  destruct Hbad as [Hin|Hin];
    now rewrite (array_map_throws (table_row params) _ elems Hin).
Qed.

(** X3: of an element of [result] only [filename] and [line_rate] are
    read: when every element is an object with a string [filename] and a
    number [line_rate], in any position and beside any other properties,
    the table has the rows of those two fields. *)
Theorem ReportUrls_reads_two_fields params d e elems files :
  useSWR (files_url params) = {| data := d; error := e |} ->
  ToBoolean d = true ->
  Get d "result" = Normal (Array elems) ->
  Forall2 has_fields elems files ->
  ReportUrls params = Normal (table (map (file_row params) files)).
Proof.
  intros Hswr Htruthy Hresult Hall. unfold ReportUrls.
  rewrite Hswr, Htruthy, Hresult. cbn [negb bind map_method].
  rewrite (array_map_each (table_row params) has_fields (file_row params)
             elems files Hall); [reflexivity|].
  intros v f i Hvf. now apply table_row_fields.
Qed.

(** X4: an element without [line_rate] is shown with the text [NaN%], and
    one whose [line_rate] is [null] with [0.0%]; the class is what
    [calcTagClassName] gives for [undefined] and for [null]. *)
Theorem coverage_cell_without_rate props :
  (own_property "line_rate" props = None ->
   coverage_cell (Object props)
   = Normal (Element "td" [("className", calcTagClassName Undefined)]
               [Embedded (Str "NaN"); Text "%"])) /\
  (own_property "line_rate" props = Some Null ->
   coverage_cell (Object props)
   = Normal (Element "td" [("className", calcTagClassName Null)]
               [Embedded (Str "0.0"); Text "%"])).
Proof.
  split; intros Hrate; unfold coverage_cell, times; cbn [Get]; rewrite Hrate;
    cbn [default from_option id bind ToNumber]; do 4 f_equal;
    vm_compute; reflexivity.
Qed.

(** X5: an element without [filename] still gets its row: the key and the
    text of the link are [undefined] and the link ends in
    [filename=undefined]. *)
Theorem table_row_without_filename params props index coverage :
  own_property "filename" props = None ->
  coverage_cell (Object props) = Normal coverage ->
  table_row params (Object props) index
  = Normal (Element "tr" [("key", Undefined)]
              [Element "td" []
                 [Element "Link"
                    [("href", Str (link_prefix params ++ "undefined"))]
                    [Element "a" [] [Embedded Undefined]]];
               coverage]).
Proof.
  intros Hname Hcoverage. unfold table_row, filename_cell. rewrite Hcoverage.
  cbn [Get]. rewrite Hname. reflexivity.
Qed.

(** X6: whatever the response is, what [ReportUrls] returns is the empty
    [div] or the table, and every row of the table has its two cells: a
    link into the file page of the same commit, and a text followed by the
    percent sign. *)
Theorem ReportUrls_output_shape params t :
  ReportUrls params = Normal t ->
  t = Element "div" [] [] \/
  exists rows, t = table rows /\ Forall (row_shaped params) rows.
Proof.
  unfold ReportUrls. destruct (useSWR (files_url params)) as [d e].
  destruct (ToBoolean d); cbn [negb]; [|intros [= <-]; now left].
  destruct (Get d "result") as [r|ex]; [|discriminate]. cbn [bind].
  destruct r; try discriminate. cbn [map_method].
  destruct (array_map (table_row params) elems 0) as [rows|ex] eqn:Hrows;
    [|discriminate].
  cbn [bind]. intros [= <-]. right. exists rows. split; [reflexivity|].
  apply (array_map_Forall (table_row params) (row_shaped params) elems) with (index := 0);
    [|exact Hrows].
  intros v i b. apply table_row_shaped.
Qed.

Lemma append_cancel (a b c : string) : a ++ b = a ++ c -> b = c.
Proof.
  induction a as [|x a IH]; cbn [String.append]; [exact (fun H => H)|].
  intros [= H]. exact (IH H).
Qed.

Lemma append_cut c (a a' r r' : string) :
  has_char c a = false -> has_char c a' = false ->
  a ++ String c r = a' ++ String c r' -> a = a' /\ r = r'.
Proof.
  revert a'. induction a as [|x a IH]; intros [|x' a']; cbn [String.append has_char];
    intros Ha Ha' Heq.
  - now inversion Heq.
  - inversion Heq; subst. rewrite Ascii.eqb_refl in Ha'. discriminate.
  - inversion Heq; subst. rewrite Ascii.eqb_refl in Ha. discriminate.
  - apply Bool.orb_false_iff in Ha as [_ Ha].
    apply Bool.orb_false_iff in Ha' as [_ Ha'].
    inversion Heq; subst. destruct (IH a' Ha Ha' H1) as [-> ->]. now split.
Qed.

Lemma append_last (a b : string) x y :
  a ++ String x "" = b ++ String y "" -> x = y.
Proof.
  revert b. induction a as [|c a IH]; intros [|d b]; cbn [String.append]; intros H.
  - now injection H.
  - injection H as _ Htail. now destruct b.
  - injection H as _ Htail. now destruct a.
  - injection H as _ Htail. now apply (IH b).
Qed.

Lemma endings_differ (a b : string) : a ++ "/files" <> b ++ "/report".
Proof.
  change "/files" with ("/file" ++ "s"). change "/report" with ("/repor" ++ "t").
  rewrite <- !append_assoc. intros H. apply append_last in H. discriminate.
Qed.

Lemma url_injective (ending : string) p q :
  slash_free p -> slash_free q ->
  apiUrl ++ "/" ++ org p ++ "/repos/" ++ repo p ++ "/commits/" ++
    commit p ++ String "/" ending
  = apiUrl ++ "/" ++ org q ++ "/repos/" ++ repo q ++ "/commits/" ++
    commit q ++ String "/" ending ->
  p = q.
Proof.
  intros (Hpo & Hpr & Hpc) (Hqo & Hqr & Hqc) Heq.
  apply append_cancel, (append_cancel "/") in Heq.
  apply (append_cut "/" _ _ _ _ Hpo Hqo) in Heq as [Horg Heq].
  apply (append_cancel "repos/") in Heq.
  apply (append_cut "/" _ _ _ _ Hpr Hqr) in Heq as [Hrepo Heq].
  apply (append_cancel "commits/") in Heq.
  apply (append_cut "/" _ _ _ _ Hpc Hqc) in Heq as [Hcommit _].
  destruct p, q. cbn in *. congruence.
Qed.

(** X7: the key under which [ReportUrls] reads is never the key under
    which [ReportPage] reads, and for route parameters without a slash
    either key determines the parameters: two commits never share a cache
    entry. *)
Theorem swr_keys_apart :
  (forall p q, files_url p <> report_url q) /\
  (forall p q, slash_free p -> slash_free q ->
     files_url p = files_url q \/ report_url p = report_url q -> p = q).
Proof.
  split.
  - intros p q Heq. unfold files_url, report_url in Heq.
    rewrite <- !append_assoc in Heq. exact (endings_differ _ _ Heq).
  - intros p q Hp Hq [Heq|Heq]; unfold files_url, report_url in Heq.
    + now apply (url_injective "files" p q Hp Hq).
    + now apply (url_injective "report" p q Hp Hq).
Qed.

Lemma percent_decode_same_length n : forall s,
  String.length s <= n ->
  String.length (percent_decode s) = String.length s ->
  percent_decode s = s.
Proof.
  induction n as [|n IH]; intros [|a rest] Hn; cbn [String.length] in Hn;
    try reflexivity; try lia.
  pose proof (length_percent_decode_bounded _ rest (le_n _)) as Hrest.
  cbn [percent_decode]. fold (percent_decode rest).
  destruct rest as [|h [|l rest']].
  - reflexivity.
  - reflexivity.
  - pose proof (length_percent_decode_bounded _ rest' (le_n _)) as Hrest'.
    destruct (Ascii.eqb a "%"), (hex_digit h), (hex_digit l);
      cbn [String.length] in *; intros Hlen; try lia;
      f_equal; apply IH; cbn [String.length]; lia.
Qed.

Lemma plus_to_space_fixed s : plus_to_space s = s -> has_char "+" s = false.
Proof.
  induction s as [|a s IH]; cbn [plus_to_space has_char]; [reflexivity|].
  destruct (Ascii.eqb a "+") eqn:Ha.
  - apply Ascii.eqb_eq in Ha as ->. discriminate.
  - intros [= H]. now apply IH.
Qed.

Lemma form_decode_plus s : has_char "+" s = true -> form_decode s <> s.
Proof.
  intros Hplus Heq. unfold form_decode in Heq.
  assert (Hlen : String.length (percent_decode (plus_to_space s))
                 = String.length (plus_to_space s))
    by now rewrite Heq, length_plus_to_space.
  apply (percent_decode_same_length _ _ (le_n _)) in Hlen.
  rewrite Hlen in Heq. apply plus_to_space_fixed in Heq. congruence.
Qed.

Lemma before_whole c s :
  String.length (before c s) = String.length s -> before c s = s.
Proof.
  intros Hlen. destruct (has_char c s) eqn:Hc.
  - apply length_before_present in Hc. lia.
  - now apply before_absent.
Qed.

(** X8: when the route parameters hold no [?] and no [#], a filename with
    a [+] in it is not what the target reads back from the link either: the
    [+] arrives as a space. *)
Theorem plus_is_not_kept params name :
  has_char "?" (org params) = false -> has_char "#" (org params) = false ->
  has_char "?" (repo params) = false -> has_char "#" (repo params) = false ->
  has_char "?" (commit params) = false -> has_char "#" (commit params) = false ->
  has_char "+" name = true ->
  exists href,
    file_href params (Str name) = Normal href /\
    linked_filename href <> Some name.
Proof.
  intros Hoq Hoh Hrq Hrh Hcq Hch Hplus. eexists. split; [apply file_href_string|].
  replace ("/" ++ org params ++ "/repos/" ++ repo params ++ "/commits/" ++
           commit params ++ "/file?filename=" ++ name)
    with (("/" ++ org params ++ "/repos/" ++ repo params ++ "/commits/" ++
           commit params ++ "/file") ++ "?filename=" ++ name)
    by now rewrite !append_assoc.
  rewrite linked_filename_of_link by (apply path_has_no; auto).
  intros [= Hname].
  pose proof (length_form_decode (before "&" (before "#" name))) as Hlen.
  pose proof (length_before "&" (before "#" name)) as Hamp.
  pose proof (length_before "#" name) as Hhash.
  rewrite Hname in Hlen.
  assert (Hh : before "#" name = name) by (apply before_whole; lia).
  rewrite Hh in Hname, Hlen, Hamp.
  assert (Ha : before "&" name = name) by (apply before_whole; lia).
  rewrite Ha in Hname.
  now apply (form_decode_plus name).
Qed.



#[local] Instance Str_key_inj : Inj (=) (=) (fun name : string => Some (Str name)).
Proof. intros a b [= H]. exact H. Qed.

(** X10: for a response of well-typed records the keys of the rows are the
    filenames in order, so the rows have distinct keys exactly when the
    records have distinct filenames. *)
Theorem row_keys_are_filenames params files e :
  useSWR (files_url params) = {| data := files_response files; error := e |} ->
  exists rows,
    ReportUrls params = Normal (table rows) /\
    map key_of rows = map (fun f => Some (Str (filename f))) files /\
    (NoDup (map key_of rows) <-> NoDup (map filename files)).
Proof.
  intros Hswr. exists (map (file_row params) files).
  assert (Hkeys : map key_of (map (file_row params) files)
                  = map (fun f => Some (Str (filename f))) files)
    by (rewrite map_map; reflexivity).
  split; [|split; [exact Hkeys|]].
  - unfold ReportUrls. rewrite Hswr.
    change (ToBoolean (files_response files)) with true.
    change (Get (files_response files) "result")
      with (Normal (Array (map file_record files))).
    cbn [negb bind map_method]. now rewrite array_map_typed.
  - rewrite Hkeys.
    rewrite <- (map_map filename (fun name => Some (Str name)) files).
    apply (NoDup_fmap (fun name : string => Some (Str name)) (map filename files)).
Qed.

End Components.

(** *** The page at concrete inputs

    Stand-ins for what the sources leave open: a base URL, a class per rate
    and the two conversions of the runtime (never reached below). *)
Definition sample_apiUrl : string := "http://localhost:8080/api".

Definition sample_calcTagClassName (rate : value) : value :=
  match rate with
  | Number x => if (0.8 <=? x)%float then Str "is-success" else Str "is-danger"
  | _ => Str ""
  end.

Definition no_NumberToString (x : float) : string := "".
Definition no_StringToNumber (s : string) : float := nan.

Definition sample_params : Params :=
  {| org := "acme"; repo := "api"; commit := "4f2a" |}.

Definition sample_files : list FileRecord :=
  [ {| filename := "src/b.js"; line_rate := 0.5; total_lines := 10; covered_lines := 5 |};
    {| filename := "src/a.js"; line_rate := 1; total_lines := 4; covered_lines := 4 |};
    {| filename := "src/b.js"; line_rate := 0.125; total_lines := 8; covered_lines := 1 |} ].

(** A cache in which every key has resolved to the sample files. *)
Definition sample_useSWR (key : string) : SWRResponse :=
  {| data := files_response sample_files; error := Undefined |}.

(** A cache in which the request has failed: no data, an error. *)
Definition failed_useSWR (key : string) : SWRResponse :=
  {| data := Undefined; error := Str "Failed to fetch" |}.

Example ReportUrls_sample :
  ReportUrls no_NumberToString no_StringToNumber sample_apiUrl
    sample_calcTagClassName sample_useSWR sample_params
  = Normal
      (table
         [Element "tr" [("key", Str "src/b.js")]
            [Element "td" []
               [Element "Link"
                  [("href", Str "/acme/repos/api/commits/4f2a/file?filename=src/b.js")]
                  [Element "a" [] [Embedded (Str "src/b.js")]]];
             Element "td" [("className", Str "is-danger")]
               [Embedded (Str "50.0"); Text "%"]];
          Element "tr" [("key", Str "src/a.js")]
            [Element "td" []
               [Element "Link"
                  [("href", Str "/acme/repos/api/commits/4f2a/file?filename=src/a.js")]
                  [Element "a" [] [Embedded (Str "src/a.js")]]];
             Element "td" [("className", Str "is-success")]
               [Embedded (Str "100.0"); Text "%"]];
          Element "tr" [("key", Str "src/b.js")]
            [Element "td" []
               [Element "Link"
                  [("href", Str "/acme/repos/api/commits/4f2a/file?filename=src/b.js")]
                  [Element "a" [] [Embedded (Str "src/b.js")]]];
             Element "td" [("className", Str "is-danger")]
               [Embedded (Str "12.5"); Text "%"]]]).
Proof. vm_compute. reflexivity. Qed.

(** A truthy response without [result] makes [data.result.map] throw. *)
Example ReportUrls_without_result :
  ReportUrls no_NumberToString no_StringToNumber sample_apiUrl
    sample_calcTagClassName
    (fun _ => {| data := Object [("detail", Str "Not Found")]; error := Undefined |})
    sample_params
  = Throw TypeError.
Proof. reflexivity. Qed.

Example toFixed_rounds_half_up :
  toFixed no_NumberToString 0.25 1 = "0.3" /\
  toFixed no_NumberToString (0.145 * 100) 1 = "14.5" /\
  toFixed no_NumberToString (-0.01) 1 = "-0.0" /\
  toFixed no_NumberToString nan 1 = "NaN".
Proof. vm_compute. repeat split. Qed.

Lemma no_data_renders_empty_div_witness :
  ReportUrls no_NumberToString no_StringToNumber sample_apiUrl
    sample_calcTagClassName failed_useSWR sample_params
  = Normal (Element "div" [] []) /\
  ReportPage sample_apiUrl failed_useSWR sample_params
  = Normal (Element "div" [] []).
Proof.
  destruct (no_data_renders_empty_div no_NumberToString no_StringToNumber
              sample_apiUrl sample_calcTagClassName failed_useSWR sample_params
              Undefined (Str "Failed to fetch") eq_refl) as [Hurls Hpage].
  split; [apply Hurls | apply Hpage]; reflexivity.
Defined.

Lemma rows_follow_result_witness :
  exists rows,
    table (map (file_row no_NumberToString sample_calcTagClassName sample_params)
             sample_files) = table rows /\
    List.length rows = 3 /\
    forall i value, map file_record sample_files !! i = Some value ->
      exists row, rows !! i = Some row /\
        table_row no_NumberToString no_StringToNumber sample_calcTagClassName
          sample_params value i = Normal row.
Proof.
  apply (rows_follow_result no_NumberToString no_StringToNumber sample_apiUrl
           sample_calcTagClassName sample_useSWR sample_params
           (map file_record sample_files)).
  - reflexivity.
  - reflexivity.
  - vm_compute. reflexivity.
Defined.

Lemma ReportUrls_renders_result_witness :
  ReportUrls no_NumberToString no_StringToNumber sample_apiUrl
    sample_calcTagClassName sample_useSWR sample_params
  = Normal (table (map (file_row no_NumberToString sample_calcTagClassName
                          sample_params) sample_files)).
Proof.
  apply (ReportUrls_renders_result no_NumberToString no_StringToNumber
           sample_apiUrl sample_calcTagClassName sample_useSWR sample_params
           sample_files Undefined).
  reflexivity.
Defined.




(** With a [?] in a route parameter the query starts there, and even a
    filename with a [&] can come back: the condition on the route
    parameters is needed. *)
Example question_mark_in_route :
  linked_filename
    ("/" ++ "x?filename=a%26b&y=" ++ "/repos/" ++ "api" ++ "/commits/" ++ "4f2a" ++
     "/file?filename=" ++ "a&b")
  = Some "a&b".
Proof. reflexivity. Qed.

(** *** The rest of the page at concrete inputs *)

(** A cache in which the files request was answered with an error body. *)
Definition not_found : value := Object [("detail", Str "Not Found")].

Definition not_found_useSWR (key : string) : SWRResponse :=
  {| data := not_found; error := Undefined |}.

(** A body with a [null] after a record. *)
Definition holed_useSWR (key : string) : SWRResponse :=
  {| data := Object [("result",
                      Array [Object [("filename", Str "src/a.js");
                                     ("line_rate", Number 1)];
                             Null])];
     error := Undefined |}.

(** A body whose record has its fields in another order, one more and two
    fewer than documented. *)
Definition other_fields : list value :=
  [Object [("line_rate", Number 0.5); ("branch_rate", Null);
           ("filename", Str "src/b.js")]].

Definition other_fields_useSWR (key : string) : SWRResponse :=
  {| data := Object [("status", Str "ok"); ("result", Array other_fields)];
     error := Undefined |}.


Definition sample_context : Context :=
  {| context_params := sample_params; context_query := Object [] |}.

Lemma ReportUrls_needs_array_witness :
  ReportUrls no_NumberToString no_StringToNumber sample_apiUrl
    sample_calcTagClassName not_found_useSWR sample_params
  = Throw TypeError.
Proof.
  apply (ReportUrls_needs_array no_NumberToString no_StringToNumber sample_apiUrl
           sample_calcTagClassName not_found_useSWR sample_params not_found Undefined).
  - reflexivity.
  - reflexivity.
  - intros elems H. simpl in H. discriminate H.
Defined.

Lemma ReportUrls_throws_on_null_element_witness :
  ReportUrls no_NumberToString no_StringToNumber sample_apiUrl
    sample_calcTagClassName holed_useSWR sample_params
  = Throw TypeError.
Proof.
  apply (ReportUrls_throws_on_null_element no_NumberToString no_StringToNumber
           sample_apiUrl sample_calcTagClassName holed_useSWR sample_params
           (data (holed_useSWR "")) Undefined
           [Object [("filename", Str "src/a.js"); ("line_rate", Number 1)]; Null]).
  - reflexivity.
  - reflexivity.
  - reflexivity.
  - left. simpl. right. left. reflexivity.
Defined.

Lemma ReportUrls_reads_two_fields_witness :
  ReportUrls no_NumberToString no_StringToNumber sample_apiUrl
    sample_calcTagClassName other_fields_useSWR sample_params
  = Normal
      (table
         (map (file_row no_NumberToString sample_calcTagClassName sample_params)
            [ {| filename := "src/b.js"; line_rate := 0.5;
                 total_lines := 0; covered_lines := 0 |} ])).
Proof.
  apply (ReportUrls_reads_two_fields no_NumberToString no_StringToNumber
           sample_apiUrl sample_calcTagClassName other_fields_useSWR sample_params
           (data (other_fields_useSWR "")) Undefined other_fields).
  - reflexivity.
  - reflexivity.
  - reflexivity.
  - constructor; [|constructor]. eexists. split; [reflexivity|]. split; reflexivity.
Defined.

Lemma coverage_cell_without_rate_witness :
  coverage_cell no_NumberToString no_StringToNumber sample_calcTagClassName
    (Object [("filename", Str "src/a.js")])
  = Normal (Element "td" [("className", Str "")] [Embedded (Str "NaN"); Text "%"]) /\
  coverage_cell no_NumberToString no_StringToNumber sample_calcTagClassName
    (Object [("filename", Str "src/a.js"); ("line_rate", Null)])
  = Normal (Element "td" [("className", Str "")] [Embedded (Str "0.0"); Text "%"]).
Proof.
  split.
  - apply (proj1 (coverage_cell_without_rate no_NumberToString no_StringToNumber
                    sample_calcTagClassName [("filename", Str "src/a.js")])).
    reflexivity.
  - apply (proj2 (coverage_cell_without_rate no_NumberToString no_StringToNumber
                    sample_calcTagClassName
                    [("filename", Str "src/a.js"); ("line_rate", Null)])).
    reflexivity.
Defined.

Lemma table_row_without_filename_witness :
  table_row no_NumberToString no_StringToNumber sample_calcTagClassName
    sample_params (Object [("line_rate", Number 0.5)]) 0
  = Normal (Element "tr" [("key", Undefined)]
              [Element "td" []
                 [Element "Link"
                    [("href",
                      Str "/acme/repos/api/commits/4f2a/file?filename=undefined")]
                    [Element "a" [] [Embedded Undefined]]];
               Element "td" [("className", Str "is-danger")]
                 [Embedded (Str "50.0"); Text "%"]]).
Proof.
  apply (table_row_without_filename no_NumberToString no_StringToNumber
           sample_calcTagClassName sample_params [("line_rate", Number 0.5)] 0).
  - reflexivity.
  - vm_compute. reflexivity.
Defined.

Lemma ReportUrls_output_shape_witness :
  table (map (file_row no_NumberToString sample_calcTagClassName sample_params)
           sample_files)
  = Element "div" [] [] \/
  exists rows,
    table (map (file_row no_NumberToString sample_calcTagClassName sample_params)
             sample_files)
    = table rows /\
    Forall (row_shaped sample_params) rows.
Proof.
  apply (ReportUrls_output_shape no_NumberToString no_StringToNumber sample_apiUrl
           sample_calcTagClassName sample_useSWR sample_params).
  vm_compute. reflexivity.
Defined.

Lemma swr_keys_apart_witness :
  files_url sample_apiUrl sample_params <> report_url sample_apiUrl sample_params /\
  sample_params = {| org := "acme"; repo := "api"; commit := "4f2a" |}.
Proof.
  split.
  - apply (proj1 (swr_keys_apart sample_apiUrl)).
  - apply (proj2 (swr_keys_apart sample_apiUrl)).
    + repeat split.
    + repeat split.
    + left. reflexivity.
Defined.

Lemma plus_is_not_kept_witness :
  exists href,
    file_href no_NumberToString sample_params (Str "src/c++/a.cc") = Normal href /\
    linked_filename href <> Some "src/c++/a.cc".
Proof.
  apply (plus_is_not_kept no_NumberToString sample_params "src/c++/a.cc");
    reflexivity.
Defined.


Lemma row_keys_are_filenames_witness :
  exists rows,
    ReportUrls no_NumberToString no_StringToNumber sample_apiUrl
      sample_calcTagClassName sample_useSWR sample_params
    = Normal (table rows) /\
    map key_of rows
    = map (fun f => Some (Str (filename f))) sample_files /\
    (NoDup (map key_of rows) <-> NoDup (map filename sample_files)).
Proof.
  apply (row_keys_are_filenames no_NumberToString no_StringToNumber sample_apiUrl
           sample_calcTagClassName sample_useSWR sample_params sample_files Undefined).
  reflexivity.
Defined.

(** Route parameters with a slash can share a key. *)
Example keys_collide_with_slashes :
  files_url sample_apiUrl {| org := "a"; repo := "b/commits/c"; commit := "d" |}
  = files_url sample_apiUrl {| org := "a"; repo := "b"; commit := "c/commits/d" |}.
Proof. reflexivity. Qed.

(** With a report and an error body for the files the whole page throws. *)
Example page_throws_with_ReportUrls :
  page no_NumberToString no_StringToNumber sample_apiUrl sample_calcTagClassName
    not_found_useSWR sample_context
  = Throw TypeError.
Proof. reflexivity. Qed.

End Page.

(** ** The engine

    The normalizer, the aggregator, the store and the query interface are
    not among the sources.  They are modelled here from the specification:
    uploads happen one after the other on a storage that does not fail;
    branch data, per-line hit counts, upload timestamps and the diff mode
    are left out; a rate is the exact quotient of two line counts, where the
    specification has its rounding to binary64. *)

Module Engine.

Import Text.

(** *** Schema *)

(** Modelled from the spec: the error taxonomy of section 7, which no source
    file declares.  [ZeroDivision] is not part of it: it is the failure of a
    division by zero, there for the aggregator to be shown free of it. *)
Inductive error :=
| ParseError (location : nat)
| UnsupportedFormatError
| InvalidPathError
| EmptyReportError
| NotFoundError
| ConflictError
| StorageUnavailableError
| ZeroDivision.

Inductive result (A : Type) :=
| Ok (a : A)
| Err (e : error).
Arguments Ok {A} a.
Arguments Err {A} e.

(** Modelled from the spec: the FileCoverage entry of section 3, without
    its optional detail; [line_rate] is derived, see [file_line_rate]. *)
Record FileCoverage := {
  filename : string;
  total_lines : nat;
  covered_lines : nat
}.

Record CommitKey := { org : string; repo : string; commit : string }.

#[global] Instance CommitKey_eq_dec : EqDecision CommitKey.
Proof. solve_decision. Defined.

(** Modelled from the spec: the aggregates of a Report, which are also the
    body of [GET .../report]; [None] is the undefined rate of a report
    without executable lines. *)
Record Summary := {
  line_rate : option Q;
  summary_total_lines : nat;
  summary_covered_lines : nat
}.

(** Modelled from the spec: a row of the [reports] table with its rows of
    the [files] table. *)
Record Report := {
  report_id : nat;
  report_commit : CommitKey;
  content_hash : N;
  current : bool;
  summary : Summary;
  files : list FileCoverage
}.

(** *** Normalizer *)

Definition join (sep : string) (pieces : list string) : string :=
  String.concat sep pieces.

(** Modelled from the spec: the filename rule of section 4.1.  A leading
    slash makes a path absolute; the segments are the pieces between
    slashes; empty segments and [.] are the redundant ones. *)
Definition leading_slash (name : string) : bool :=
  match name with
  | String c _ => Ascii.eqb c "/"
  | "" => false
  end.

Definition normalize_filename (name : string) : result string :=
  let segments := split "/" name in
  if leading_slash name then Err InvalidPathError
  else if existsb (String.eqb "..") segments then Err InvalidPathError
  else Ok (join "/"
             (List.filter (fun s => negb (String.eqb s "" || String.eqb s "."))
                segments)).

Fixpoint normalize_filenames (entries : list FileCoverage)
  : result (list FileCoverage) :=
  match entries with
  | [] => Ok []
  | f :: rest =>
      match normalize_filename (filename f) with
      | Err e => Err e
      | Ok name =>
          match normalize_filenames rest with
          | Err e => Err e
          | Ok fs =>
              Ok ({| filename := name; total_lines := total_lines f;
                     covered_lines := covered_lines f |} :: fs)
          end
      end
  end.

Definition named (name : string) (f : FileCoverage) : bool :=
  String.eqb (filename f) name.

(** Modelled from the spec: of several entries with one filename the last
    occurrence wins. *)
Fixpoint last_wins (entries : list FileCoverage) : list FileCoverage :=
  match entries with
  | [] => []
  | f :: rest =>
      if existsb (named (filename f)) rest then last_wins rest
      else f :: last_wins rest
  end.

(** The filenames of the entries that [last_wins] drops, for the warnings. *)
Fixpoint shadowed (entries : list FileCoverage) : list string :=
  match entries with
  | [] => []
  | f :: rest =>
      if existsb (named (filename f)) rest then filename f :: shadowed rest
      else shadowed rest
  end.

Record Draft := { draft_files : list FileCoverage; warnings : list string }.

Section Pipeline.

(** The parsers of the raw formats, by format tag: a closed set, each from
    payload bytes to the entries as the payload lists them or to the
    location of the first malformed byte. *)
Variable parser_for : string -> option (list Byte.byte -> nat + list FileCoverage).

(** The hash of a payload's content. *)
Variable hash : list Byte.byte -> N.

(** Whether a report without executable lines is accepted, its aggregate
    undefined (the default), or refused. *)
Variable accept_empty : bool.

(** Modelled from the spec: the Normalizer of section 4.1, which is not
    among the sources: a function from the payload and its declared format
    to a draft or an error. *)
Definition Normalize (payload : list Byte.byte) (tag : string) : result Draft :=
  match parser_for tag with
  | None => Err UnsupportedFormatError
  | Some parse =>
      match parse payload with
      | inl location => Err (ParseError location)
      | inr entries =>
          match normalize_filenames entries with
          | Err e => Err e
          | Ok fs => Ok {| draft_files := last_wins fs; warnings := shadowed fs |}
          end
      end
  end.

(** *** Aggregator *)

Definition executable (f : FileCoverage) : bool := (0 <? total_lines f)%nat.

Definition sum_total (fs : list FileCoverage) : nat :=
  list_sum (map total_lines fs).

Definition sum_covered (fs : list FileCoverage) : nat :=
  list_sum (map covered_lines fs).

Definition ratio (covered total : nat) : Q :=
  Z.of_nat covered # Pos.of_nat total.

Definition divide (covered total : nat) : result Q :=
  if (total =? 0)%nat then Err ZeroDivision else Ok (ratio covered total).

(** Modelled from the spec: the rate of one file; [Ok None] is the flag of
    a file without executable lines. *)
Definition file_line_rate (f : FileCoverage) : result (option Q) :=
  if executable f then
    match divide (covered_lines f) (total_lines f) with
    | Ok q => Ok (Some q)
    | Err e => Err e
    end
  else Ok None.

(** Modelled from the spec: the weighted rollup of the Aggregator of
    section 4.2, which is not among the sources: covered over total lines
    of the files that have executable lines. *)
Definition rollup (fs : list FileCoverage) : result Q :=
  match List.filter executable fs with
  | [] => Err EmptyReportError
  | counted => divide (sum_covered counted) (sum_total counted)
  end.

(** Modelled from the spec: packages by directory prefix of a given depth,
    1 (the top-level directory) by default. *)
Definition package_of (depth : nat) (name : string) : string :=
  join "/" (take depth (removelast (split "/" name))).

Definition in_package (depth : nat) (package : string) (f : FileCoverage) : bool :=
  String.eqb (package_of depth (filename f)) package.

Definition PackageCoverage (depth : nat) (fs : list FileCoverage)
  : list (string * result Q) :=
  map (fun package => (package, rollup (List.filter (in_package depth package) fs)))
    (remove_dups (map (fun f => package_of depth (filename f)) fs)).

(** Modelled from the spec: the report-level aggregates, with the policy
    for a report without executable lines. *)
Definition aggregate (fs : list FileCoverage) : result Summary :=
  let counted := List.filter executable fs in
  match rollup fs with
  | Ok q =>
      Ok {| line_rate := Some q; summary_total_lines := sum_total counted;
            summary_covered_lines := sum_covered counted |}
  | Err EmptyReportError =>
      if accept_empty
      then Ok {| line_rate := None; summary_total_lines := 0;
                 summary_covered_lines := 0 |}
      else Err EmptyReportError
  | Err e => Err e
  end.

(** *** Store *)

(** Modelled from the spec: the tables of section 6.  Rows are only ever
    added, so the number of reports so far serves as the next id. *)
Record Store := {
  organizations : list string;
  repositories : list (string * string);
  commits : list CommitKey;
  reports : list Report
}.

Definition empty : Store :=
  {| organizations := []; repositories := []; commits := []; reports := [] |}.

Definition upsert {A} `{EqDecision A} (x : A) (rows : list A) : list A :=
  if decide (x ∈ rows) then rows else rows ++ [x].

Definition same_content (key : CommitKey) (contentHash : N) (r : Report) : bool :=
  bool_decide (report_commit r = key) && (content_hash r =? contentHash)%N.

Definition retire (key : CommitKey) (r : Report) : Report :=
  if bool_decide (report_commit r = key)
  then {| report_id := report_id r; report_commit := report_commit r;
          content_hash := content_hash r; current := false;
          summary := summary r; files := files r |}
  else r.

(** Modelled from the spec: [Upload] of the Store of section 4.3, which is
    not among the sources.  A report of the same commit and content is
    returned as it is; otherwise the commit's rows are upserted, its current
    report retired and the new one added as current. *)
Definition Upload (s : Store) (key : CommitKey) (contentHash : N)
    (aggregates : Summary) (fs : list FileCoverage) : Store * Report :=
  match List.find (same_content key contentHash) (reports s) with
  | Some existing => (s, existing)
  | None =>
      let new := {| report_id := List.length (reports s); report_commit := key;
                    content_hash := contentHash; current := true;
                    summary := aggregates; files := fs |} in
      ({| organizations := upsert (org key) (organizations s);
          repositories := upsert (org key, repo key) (repositories s);
          commits := upsert key (commits s);
          reports := map (retire key) (reports s) ++ [new] |},
       new)
  end.

Definition is_current (key : CommitKey) (r : Report) : bool :=
  bool_decide (report_commit r = key) && current r.

(** Modelled from the spec: [GetCurrentReport] of section 4.3, which is not
    among the sources. *)
Definition GetCurrentReport (s : Store) (key : CommitKey) : result Report :=
  match List.find (is_current key) (reports s) with
  | Some r => Ok r
  | None => Err NotFoundError
  end.

Definition by_filename (f g : FileCoverage) : Prop :=
  String.le (filename f) (filename g).

(** Modelled from the spec: [ListFiles] of section 4.3, which is not among
    the sources: the rows of the current report ordered by filename,
    bytewise. *)
Definition ListFiles (s : Store) (key : CommitKey) : result (list FileCoverage) :=
  match GetCurrentReport s key with
  | Ok r => Ok (merge_sort by_filename (files r))
  | Err e => Err e
  end.

(** *** Upload endpoint and query API *)

(** Modelled from the spec: the upload endpoint, which is not among the
    sources, with the control flow of section 2: normalizer, then
    aggregator, then store; an error of the first two leaves the store as it
    was. *)
Definition upload (s : Store) (key : CommitKey) (payload : list Byte.byte)
    (tag : string) : Store * result Report :=
  match Normalize payload tag with
  | Err e => (s, Err e)
  | Ok draft =>
      match aggregate (draft_files draft) with
      | Err e => (s, Err e)
      | Ok aggregates =>
          let '(s', r) := Upload s key (hash payload) aggregates (draft_files draft) in
          (s', Ok r)
      end
  end.


(** Modelled from the spec: an element of the [result] of [GET .../files]. *)
Record FileEntry := {
  entry_filename : string;
  entry_line_rate : option Q;
  entry_total_lines : nat;
  entry_covered_lines : nat
}.

Definition file_entry (f : FileCoverage) : FileEntry :=
  {| entry_filename := filename f;
     entry_line_rate := match file_line_rate f with
                        | Ok rate => rate
                        | Err _ => None
                        end;
     entry_total_lines := total_lines f;
     entry_covered_lines := covered_lines f |}.

(** Modelled from the spec: [GET .../files] of the query API, which is not
    among the sources. *)
Definition get_files (s : Store) (key : CommitKey) : result (list FileEntry) :=
  match ListFiles s key with
  | Ok fs => Ok (map file_entry fs)
  | Err e => Err e
  end.

(** *** Notions of the statements *)





Definition absolute (name : string) : Prop :=
  exists rest, name = String "/" rest.

Definition traverses (name : string) : Prop :=
  In ".." (split "/" name).

(** The number of reports of a commit with a given content. *)
Definition rows_with (key : CommitKey) (contentHash : N) (s : Store) : nat :=
  List.length (List.filter (same_content key contentHash) (reports s)).

(** The uniqueness constraint on [(commit_id, content_hash)]. *)
Definition unique_content (s : Store) : Prop :=
  forall key contentHash, rows_with key contentHash s <= 1.

(** The payload of the round trip: [f1] with 10 of 10 lines covered, [f2]
    with 0 of 10. *)
Definition round_trip_files : list FileCoverage :=
  [ {| filename := "f1"; total_lines := 10; covered_lines := 10 |};
    {| filename := "f2"; total_lines := 10; covered_lines := 0 |} ].

(** The stores that uploads build from the empty one. *)
Inductive reachable : Store -> Prop :=
| reachable_empty : reachable empty
| reachable_upload s key payload tag :
    reachable s -> reachable (fst (upload s key payload tag)).

(** *** Properties of the aggregator *)



















(** *** Properties of the normalizer *)

Lemma normalize_filename_error name e :
  normalize_filename name = Err e -> e = InvalidPathError.
Proof.
  unfold normalize_filename. destruct (leading_slash name); [congruence|].
  destruct (existsb (String.eqb "..") (split "/" name)); congruence.
Qed.

Lemma normalize_filename_rejects name :
  absolute name \/ traverses name ->
  normalize_filename name = Err InvalidPathError.
Proof.
  unfold normalize_filename. intros [[rest ->]|Hdots]; [reflexivity|].
  destruct (leading_slash name); [reflexivity|].
  assert (Hex : existsb (String.eqb "..") (split "/" name) = true).
  { apply existsb_exists. exists "..". split; [exact Hdots | reflexivity]. }
  now rewrite Hex.
Qed.

Lemma normalize_filenames_error entries e :
  normalize_filenames entries = Err e -> e = InvalidPathError.
Proof.
  induction entries as [|f rest IH]; cbn [normalize_filenames]; [discriminate|].
  destruct (normalize_filename (filename f)) as [name|e'] eqn:Hname.
  - destruct (normalize_filenames rest) as [fs|e'']; [discriminate|].
    intros [= <-]. now apply IH.
  - intros [= <-]. now apply normalize_filename_error in Hname.
Qed.

Lemma normalize_filenames_rejects entries f :
  In f entries ->
  absolute (filename f) \/ traverses (filename f) ->
  normalize_filenames entries = Err InvalidPathError.
Proof.
  intros Hin Hbad. induction entries as [|g rest IH]; [contradiction|].
  cbn [normalize_filenames]. destruct Hin as [->|Hin].
  - now rewrite (normalize_filename_rejects _ Hbad).
  - destruct (normalize_filename (filename g)) as [name|e] eqn:Hname.
    + now rewrite (IH Hin).
    + now rewrite (normalize_filename_error _ _ Hname).
Qed.

(** C7: the normalizer is a function of the payload and the format tag
    alone, and what it returns is a draft or one of its three errors; when
    the payload parses and one of its entries has an absolute filename or
    one with a [..] segment, the result is [InvalidPathError] and not a
    draft, wherever the entry stands. *)
Theorem Normalize_rejects_invalid_paths :
  (forall payload tag,
     (exists draft, Normalize payload tag = Ok draft) \/
     Normalize payload tag = Err UnsupportedFormatError \/
     (exists location, Normalize payload tag = Err (ParseError location)) \/
     Normalize payload tag = Err InvalidPathError) /\
  (forall payload tag parse entries f,
     parser_for tag = Some parse ->
     parse payload = inr entries ->
     In f entries ->
     absolute (filename f) \/ traverses (filename f) ->
     Normalize payload tag = Err InvalidPathError).
Proof.
  split.
  - intros payload tag. unfold Normalize.
    destruct (parser_for tag) as [parse|]; [|now right; left].
    destruct (parse payload) as [location|entries]; [right; right; left; now eexists|].
    destruct (normalize_filenames entries) as [fs|e] eqn:Hnames; [left; now eexists|].
    apply normalize_filenames_error in Hnames as ->. now right; right; right.
  - intros payload tag parse entries f Hparser Hparse Hin Hbad. unfold Normalize.
    rewrite Hparser, Hparse.
    now rewrite (normalize_filenames_rejects entries f Hin Hbad).
Qed.

(** *** Properties of the store *)

Lemma same_content_retire key contentHash key' r :
  same_content key contentHash (retire key' r) = same_content key contentHash r.
Proof. unfold retire. now destruct (bool_decide (report_commit r = key')). Qed.

Lemma filter_same_content_retire key contentHash key' rows :
  List.filter (same_content key contentHash) (map (retire key') rows)
  = map (retire key') (List.filter (same_content key contentHash) rows).
Proof.
  induction rows as [|r rows IH]; [reflexivity|].
  cbn [map List.filter]. rewrite same_content_retire, IH.
  now destruct (same_content key contentHash r).
Qed.

Lemma find_filter {A} (keep : A -> bool) rows :
  List.find keep rows = head (List.filter keep rows).
Proof.
  induction rows as [|r rows IH]; [reflexivity|].
  cbn [List.find List.filter]. now destruct (keep r).
Qed.

Lemma same_content_refl key contentHash r :
  report_commit r = key -> content_hash r = contentHash ->
  same_content key contentHash r = true.
Proof.
  intros <- <-. unfold same_content.
  now rewrite bool_decide_eq_true_2, N.eqb_refl.
Qed.

Lemma same_content_inv key contentHash r :
  same_content key contentHash r = true ->
  report_commit r = key /\ content_hash r = contentHash.
Proof.
  unfold same_content. intros H. apply andb_true_iff in H as [Hk Hh].
  split; [now apply bool_decide_eq_true_1 in Hk | now apply N.eqb_eq].
Qed.

Lemma rows_with_Upload s key contentHash aggregates fs key' contentHash' :
  rows_with key' contentHash' (fst (Upload s key contentHash aggregates fs))
  = match List.find (same_content key contentHash) (reports s) with
    | Some _ => rows_with key' contentHash' s
    | None =>
        rows_with key' contentHash' s +
        (if same_content key' contentHash'
              {| report_id := List.length (reports s); report_commit := key;
                 content_hash := contentHash; current := true;
                 summary := aggregates; files := fs |}
         then 1 else 0)
    end.
Proof.
  unfold Upload, rows_with.
  destruct (List.find (same_content key contentHash) (reports s)); [reflexivity|].
  cbn [fst reports]. rewrite List.filter_app, List.length_app.
  rewrite filter_same_content_retire, List.length_map.
  cbn [List.filter]. now destruct (same_content key' contentHash' _).
Qed.

Lemma Upload_unique_content s key contentHash aggregates fs :
  unique_content s ->
  unique_content (fst (Upload s key contentHash aggregates fs)).
Proof.
  intros Hs key' contentHash'. rewrite rows_with_Upload.
  destruct (List.find (same_content key contentHash) (reports s)) eqn:Hfind;
    [apply Hs|].
  destruct (same_content key' contentHash' _) eqn:Hsame; [|specialize (Hs key' contentHash'); lia].
  apply same_content_inv in Hsame as [<- <-]. cbn [report_commit content_hash].
  rewrite find_filter in Hfind. unfold rows_with.
  destruct (List.filter (same_content key contentHash) (reports s)); [simpl; lia | discriminate].
Qed.

Lemma upload_unique_content s key payload tag :
  unique_content s -> unique_content (fst (upload s key payload tag)).
Proof.
  intros Hs. unfold upload. destruct (Normalize payload tag) as [draft|e]; [|exact Hs].
  destruct (aggregate (draft_files draft)) as [aggregates|e]; [|exact Hs].
  pose proof (Upload_unique_content s key (hash payload) aggregates
                (draft_files draft) Hs) as H.
  now destruct (Upload s key (hash payload) aggregates (draft_files draft)).
Qed.

Lemma reachable_unique_content s : reachable s -> unique_content s.
Proof.
  induction 1 as [|s key payload tag _ IH].
  - intros key contentHash. unfold rows_with. simpl. lia.
  - now apply upload_unique_content.
Qed.

(** What [Upload] does, by whether the content is already there. *)
Lemma Upload_again s key contentHash aggregates fs s1 r :
  unique_content s ->
  Upload s key contentHash aggregates fs = (s1, r) ->
  List.find (same_content key contentHash) (reports s1) = Some r /\
  rows_with key contentHash s1 = 1.
Proof.
  intros Hs Hup.
  pose proof (rows_with_Upload s key contentHash aggregates fs key contentHash) as Hrows.
  unfold Upload in Hup, Hrows |- *.
  destruct (List.find (same_content key contentHash) (reports s)) as [existing|] eqn:Hfind.
  - inversion Hup; subst. split; [exact Hfind|].
    specialize (Hs key contentHash). unfold rows_with in *.
    rewrite find_filter in Hfind.
    destruct (List.filter (same_content key contentHash) (reports s1));
      [discriminate | simpl in *; lia].
  - rewrite Hup in Hrows. cbn [fst] in Hrows. inversion Hup; subst. clear Hup.
    rewrite same_content_refl in Hrows by reflexivity.
    assert (Hnone : List.filter (same_content key contentHash) (reports s) = [])
      by (rewrite find_filter in Hfind;
          now destruct (List.filter (same_content key contentHash) (reports s))).
    split.
    + cbn [reports]. rewrite find_filter, List.filter_app, filter_same_content_retire, Hnone.
      cbn [map app List.filter]. now rewrite same_content_refl.
    + rewrite Hrows. unfold rows_with. rewrite Hnone. reflexivity.
Qed.

(** C2: uploading the same payload for the same commit a second time
    changes nothing: the call returns what the first call returned, the
    same report with the same id, and the store stays as the first call
    left it; after an accepted upload it holds exactly one report of that
    commit with that content. *)
Theorem upload_is_idempotent s key payload tag s1 outcome :
  unique_content s ->
  upload s key payload tag = (s1, outcome) ->
  upload s1 key payload tag = (s1, outcome) /\
  (forall r, outcome = Ok r ->
     rows_with key (hash payload) s1 = 1 /\ In r (reports s1)).
Proof.
  intros Hs. unfold upload.
  destruct (Normalize payload tag) as [draft|e];
    [|intros [= <- <-]; split; [reflexivity | discriminate]].
  destruct (aggregate (draft_files draft)) as [aggregates|e];
    [|intros [= <- <-]; split; [reflexivity | discriminate]].
  destruct (Upload s key (hash payload) aggregates (draft_files draft))
    as [s' r'] eqn:Hup.
  intros [= <- <-].
  destruct (Upload_again _ _ _ _ _ _ _ Hs Hup) as [Hfind Hone].
  split.
  - unfold Upload. now rewrite Hfind.
  - intros r [= <-]. split; [exact Hone | now apply find_some in Hfind].
Qed.





(** *** Properties of the listing *)

Lemma last_wins_names entries name :
  In name (map filename (last_wins entries)) -> In name (map filename entries).
Proof.
  induction entries as [|f rest IH]; cbn [last_wins map]; [tauto|].
  destruct (existsb (named (filename f)) rest); cbn [map]; intros H.
  - right. now apply IH.
  - destruct H as [H|H]; [now left | right; now apply IH].
Qed.

(** Filenames are unique within a draft. *)
Lemma last_wins_NoDup entries : NoDup (map filename (last_wins entries)).
Proof.
  induction entries as [|f rest IH]; cbn [last_wins map]; [constructor|].
  destruct (existsb (named (filename f)) rest) eqn:Hlater; [exact IH|].
  cbn [map]. constructor; [|exact IH].
  intros Hin. apply list_elem_of_In, last_wins_names, in_map_iff in Hin
    as (g & Hname & Hg).
  assert (Hex : existsb (named (filename f)) rest = true).
  { apply existsb_exists. exists g. split; [exact Hg|].
    unfold named. now apply String.eqb_eq. }
  congruence.
Qed.

Lemma reachable_unique_filenames s :
  reachable s -> Forall (fun r => NoDup (map filename (files r))) (reports s).
Proof.
  induction 1 as [|s key payload tag _ IH]; [constructor|].
  unfold upload. destruct (Normalize payload tag) as [draft|e] eqn:Hdraft; [|exact IH].
  destruct (aggregate (draft_files draft)) as [aggregates|e]; [|exact IH].
  unfold Upload.
  destruct (List.find (same_content key (hash payload)) (reports s)); [exact IH|].
  cbn [fst reports]. apply Forall_app. split.
  - apply List.Forall_forall. intros r Hr.
    apply in_map_iff in Hr as (r0 & <- & Hr0).
    apply (proj1 (List.Forall_forall _ _) IH) in Hr0.
    unfold retire. now destruct (bool_decide (report_commit r0 = key)).
  - constructor; [|constructor]. cbn [files].
    unfold Normalize in Hdraft. destruct (parser_for tag) as [parse|]; [|discriminate].
    destruct (parse payload) as [location|entries]; [discriminate|].
    destruct (normalize_filenames entries) as [fs|e]; [|discriminate].
    inversion Hdraft. apply last_wins_NoDup.
Qed.

#[local] Instance by_filename_trans : Transitive by_filename.
Proof. intros f g h. unfold by_filename. apply transitivity. Qed.

#[local] Instance by_filename_total : Total by_filename.
Proof. intros f g. unfold by_filename. apply total, _. Qed.

Lemma by_filename_antisym fs f g :
  NoDup (map filename fs) -> In f fs -> In g fs ->
  by_filename f g -> by_filename g f -> f = g.
Proof.
  intros Hnodup Hf Hg Hfg Hgf.
  assert (Hname : filename f = filename g) by (apply (anti_symm String.le); assumption).
  clear Hfg Hgf. induction fs as [|x fs IH]; [contradiction|].
  cbn [map] in Hnodup. apply NoDup_cons in Hnodup as [Hx Hnodup].
  destruct Hf as [->|Hf], Hg as [->|Hg]; [reflexivity| | |now apply IH].
  - exfalso. apply Hx. rewrite Hname. apply list_elem_of_In. now apply in_map.
  - exfalso. apply Hx. rewrite <- Hname. apply list_elem_of_In. now apply in_map.
Qed.

(** C3: where a commit has a current report, [ListFiles] returns its rows,
    all of them and no others, in ascending order of filename, and
    [GET .../files] returns their entries in that order; with filenames
    unique in the report, the order in which the rows were stored has no
    influence on the list. *)
Theorem ListFiles_sorted s key r :
  GetCurrentReport s key = Ok r ->
  exists rows,
    ListFiles s key = Ok rows /\
    rows ≡ₚ files r /\
    StronglySorted by_filename rows /\
    get_files s key = Ok (map file_entry rows) /\
    StronglySorted String.le (map entry_filename (map file_entry rows)) /\
    (forall stored,
       NoDup (map filename (files r)) -> stored ≡ₚ files r ->
       merge_sort by_filename stored = rows).
Proof.
  intros Hcurrent. exists (merge_sort by_filename (files r)).
  unfold get_files, ListFiles. rewrite Hcurrent.
  pose proof (StronglySorted_merge_sort by_filename (files r)) as Hsorted.
  pose proof (merge_sort_Permutation by_filename (files r)) as Hperm.
  repeat split; try assumption.
  - rewrite map_map. cbn [file_entry entry_filename].
    now apply (StronglySorted_fmap filename by_filename String.le).
  - intros stored Hnodup Hstored.
    apply (StronglySorted_unique_strong by_filename).
    + intros f g Hf Hg. apply (by_filename_antisym (files r) f g Hnodup).
      * apply list_elem_of_In in Hf.
        now rewrite (merge_sort_Permutation by_filename stored), Hstored in Hf.
      * apply list_elem_of_In in Hg. now rewrite Hperm in Hg.
    + apply StronglySorted_merge_sort; apply _.
    + exact Hsorted.
    + now rewrite (merge_sort_Permutation by_filename stored), Hstored, Hperm.
Qed.

End Pipeline.

(** *** The engine at concrete inputs

    Stand-ins for what the specification leaves open: two formats (under
    [name] the payload is the filename of a file with one covered line;
    under [round-trip] it is read as the payload of the round trip) and a
    hash. *)
Definition sample_parser_for (tag : string)
  : option (list Byte.byte -> nat + list FileCoverage) :=
  if String.eqb tag "name" then
    Some (fun payload =>
            inr [ {| filename := string_of_list_byte payload;
                     total_lines := 1; covered_lines := 1 |} ])
  else if String.eqb tag "round-trip" then Some (fun _ => inr round_trip_files)
  else None.

Definition sample_hash (payload : list Byte.byte) : N :=
  N.of_nat (List.length payload).

Definition sample_key : CommitKey :=
  {| org := "acme"; repo := "api"; commit := "4f2a" |}.

Definition sample_upload (s : Store) (payload : list Byte.byte) (tag : string)
  : Store * result Report :=
  upload sample_parser_for sample_hash true s sample_key payload tag.

(** The report and the store after the first upload of the round trip. *)
Definition round_trip_report : Report :=
  {| report_id := 0; report_commit := sample_key; content_hash := 0;
     current := true;
     summary := {| line_rate := Some (10 # 20)%Q; summary_total_lines := 20;
                   summary_covered_lines := 10 |};
     files := round_trip_files |}.

Definition round_trip_store : Store :=
  {| organizations := ["acme"]; repositories := [("acme", "api")];
     commits := [sample_key]; reports := [round_trip_report] |}.

(** A report whose files were stored out of order, one of them without
    lines. *)
Definition unsorted_files : list FileCoverage :=
  [ {| filename := "src/b.js"; total_lines := 8; covered_lines := 4 |};
    {| filename := "src/a.js"; total_lines := 0; covered_lines := 0 |};
    {| filename := "lib/c.js"; total_lines := 3; covered_lines := 3 |} ].

Definition unsorted_report : Report :=
  {| report_id := 0; report_commit := sample_key; content_hash := 7;
     current := true;
     summary := {| line_rate := Some (7 # 11)%Q; summary_total_lines := 11;
                   summary_covered_lines := 7 |};
     files := unsorted_files |}.

Definition unsorted_store : Store :=
  {| organizations := ["acme"]; repositories := [("acme", "api")];
     commits := [sample_key]; reports := [unsorted_report] |}.

Example upload_round_trip :
  sample_upload empty [] "round-trip" = (round_trip_store, Ok round_trip_report).
Proof. vm_compute. reflexivity. Qed.

Example upload_other_content :
  exists s r,
    sample_upload round_trip_store (list_byte_of_string "src/a.js") "name" = (s, Ok r) /\
    report_id r = 1 /\ current r = true /\
    map current (reports s) = [false; true] /\
    GetCurrentReport s sample_key = Ok r.
Proof. eexists _, _. vm_compute. repeat split. Qed.

Example upload_unsupported :
  sample_upload empty [] "lcov" = (empty, Err UnsupportedFormatError).
Proof. reflexivity. Qed.

Example normalize_filename_strips :
  normalize_filename "src/./a//b.js" = Ok "src/a/b.js" /\
  normalize_filename "/etc/passwd" = Err InvalidPathError /\
  normalize_filename "src/../../secret" = Err InvalidPathError /\
  normalize_filename "src/a..b.js" = Ok "src/a..b.js".
Proof. repeat split. Qed.

Example last_wins_sample :
  last_wins [ {| filename := "a.js"; total_lines := 2; covered_lines := 1 |};
              {| filename := "b.js"; total_lines := 5; covered_lines := 5 |};
              {| filename := "a.js"; total_lines := 2; covered_lines := 2 |} ]
  = [ {| filename := "b.js"; total_lines := 5; covered_lines := 5 |};
      {| filename := "a.js"; total_lines := 2; covered_lines := 2 |} ].
Proof. reflexivity. Qed.

Example ListFiles_unsorted :
  ListFiles unsorted_store sample_key
  = Ok [ {| filename := "lib/c.js"; total_lines := 3; covered_lines := 3 |};
         {| filename := "src/a.js"; total_lines := 0; covered_lines := 0 |};
         {| filename := "src/b.js"; total_lines := 8; covered_lines := 4 |} ].
Proof. vm_compute. reflexivity. Qed.

Example PackageCoverage_unsorted :
  PackageCoverage 1 unsorted_files
  = [ ("src", Ok (4 # 8)%Q); ("lib", Ok (3 # 3)%Q) ] /\
  rollup unsorted_files = Ok (7 # 11)%Q /\
  rollup [ {| filename := "src/a.js"; total_lines := 0; covered_lines := 0 |} ]
  = Err EmptyReportError.
Proof. vm_compute. repeat split. Qed.


Lemma upload_is_idempotent_witness :
  sample_upload round_trip_store [] "round-trip"
  = (round_trip_store, Ok round_trip_report) /\
  rows_with sample_key (sample_hash []) round_trip_store = 1 /\
  In round_trip_report (reports round_trip_store).
Proof.
  destruct (upload_is_idempotent sample_parser_for sample_hash true empty sample_key
              [] "round-trip" round_trip_store (Ok round_trip_report))
    as [Hagain Hone].
  - intros key contentHash. unfold rows_with. simpl. lia.
  - vm_compute. reflexivity.
  - split; [exact Hagain | exact (Hone round_trip_report eq_refl)].
Defined.

Lemma ListFiles_sorted_witness :
  exists rows,
    ListFiles unsorted_store sample_key = Ok rows /\
    rows ≡ₚ unsorted_files /\
    StronglySorted by_filename rows /\
    get_files unsorted_store sample_key = Ok (map file_entry rows) /\
    StronglySorted String.le (map entry_filename (map file_entry rows)) /\
    (forall stored,
       NoDup (map filename unsorted_files) -> stored ≡ₚ unsorted_files ->
       merge_sort by_filename stored = rows).
Proof.
  apply (ListFiles_sorted unsorted_store sample_key unsorted_report).
  vm_compute. reflexivity.
Defined.


Lemma Normalize_rejects_invalid_paths_witness :
  Normalize sample_parser_for (list_byte_of_string "src/../../secret") "name"
  = Err InvalidPathError.
Proof.
  apply (proj2 (Normalize_rejects_invalid_paths sample_parser_for)
           (list_byte_of_string "src/../../secret") "name"
           (fun payload =>
              inr [ {| filename := string_of_list_byte payload;
                       total_lines := 1; covered_lines := 1 |} ])
           [ {| filename := "src/../../secret"; total_lines := 1; covered_lines := 1 |} ]
           {| filename := "src/../../secret"; total_lines := 1; covered_lines := 1 |}).
  - reflexivity.
  - reflexivity.
  - simpl. left. reflexivity.
  - right. vm_compute. right. left. reflexivity.
Defined.

End Engine.
